(** * OpenCV-hand: background model, hand segmentation and finger counting

    A shallow embedding of [main.py].  Python integers are [Z], Python
    floats are IEEE binary64 numbers ([PrimFloat.float]), numpy arrays are
    lists, and the module-level [background] together with the arrays that
    the functions pass by reference live in an explicit program state.
    The OpenCV primitives whose result depends on image geometry
    (contour extraction, convex hull, rasterisation, ...) are parameters of
    the development; the cell-wise primitives are written out. *)

From Stdlib Require Import ZArith List Lia Bool Floats QArith Qround String.
From stdpp Require Import base list.
Import ListNotations.
Open Scope Z_scope.

(** ** Data model *)

(** A point is an (x, y) pair of integers; a contour is the sequence of its
    points (a numpy array of shape (n, 1, 2)). *)
Definition Point : Type := Z * Z.
Definition Contour : Type := list Point.

(** A single-channel 8-bit image: rows of cells. *)
Definition Image : Type := list (list Z).

(** The background model: rows of binary64 cells. *)
Definition FloatGrid : Type := list (list float).

(** Arrays that are passed by reference. *)
Inductive ndarray : Type :=
| U8 (img : Image)
| I32 (pts : Contour).

Definition ref : Type := nat.

(** The program state: the global [background] (None until the first
    frame) and the store of arrays reachable through references. *)
Record State : Type := mkState {
  background : option FloatGrid;
  heap : list ndarray
}.

Inductive exn : Type :=
| ValueError
| OverflowError
| AttributeError
| IndexError
| TypeError
| cv2_error.

(** Outcome of running a piece of code: a value or a raised exception,
    each with the state reached at that moment. *)
Inductive Res (A : Type) : Type :=
| Ok (a : A) (s : State)
| Raise (e : exn) (s : State).
Arguments Ok {A} a s.
Arguments Raise {A} e s.

Definition M (A : Type) : Type := State -> Res A.

Definition ret {A} (a : A) : M A := fun s => Ok a s.
Definition raise {A} (e : exn) : M A := fun s => Raise e s.
Definition bind {A B} (m : M A) (k : A -> M B) : M B :=
  fun s => match m s with
           | Ok a s' => k a s'
           | Raise e s' => Raise e s'
           end.

Notation "x <- c1 ;; c2" := (bind c1 (fun x => c2))
  (at level 100, c1 at next level, right associativity).
Notation "c1 ;;; c2" := (bind c1 (fun _ => c2))
  (at level 100, right associativity).

Definition get_background : M (option FloatGrid) :=
  fun s => Ok (background s) s.
Definition set_background (b : option FloatGrid) : M unit :=
  fun s => Ok tt (mkState b (heap s)).

(** [for x in xs: acc = body acc x] *)
Fixpoint for_each {A B} (xs : list A) (body : B -> A -> M B) (acc : B) : M B :=
  match xs with
  | [] => ret acc
  | x :: xs' => acc' <- body acc x ;; for_each xs' body acc'
  end.

(** ** Python floats *)

(** [float(n)] for an integer [n]: the nearest binary64 number, ties to
    even.  The integers the program converts (pixel coordinates, sums of
    their squares, point counts, radii) are far inside the range of
    binary64, where this is Python's conversion; beyond that range the
    value here is an infinity. *)
Definition float_of_int (z : Z) : float :=
  SF2Prim (binary_normalize prec emax z 0 false).

(** [a > b] on floats. *)
Definition float_gt (a b : float) : bool := PrimFloat.ltb b a.

(** [np.pi] *)
Definition np_pi : float := 0x1.921fb54442d18p+1%float.

(** [math.sqrt(n)] for an integer argument. *)
Definition math_sqrt (n : Z) : M float :=
  if n <? 0 then raise ValueError else ret (PrimFloat.sqrt (float_of_int n)).

(** Truncation toward zero of a finite binary64 number. *)
Definition SFtrunc (f : spec_float) : option Z :=
  match f with
  | S754_zero _ => Some 0
  | S754_finite s m e =>
      let mag := if 0 <=? e then Z.pos m * 2 ^ e else Z.pos m / 2 ^ (- e) in
      Some (if s then - mag else mag)
  | _ => None
  end.

(** [int(x)] for a float [x]. *)
Definition py_int (x : float) : M Z :=
  match Prim2SF x with
  | S754_nan => raise ValueError
  | S754_infinity _ => raise OverflowError
  | f => match SFtrunc f with Some z => ret z | None => raise ValueError end
  end.


(** ** Python builtins *)

Section PyMax.
Context {A K : Type} (key : A -> K) (gt : K -> K -> bool).

Definition py_max_step (cur item : A) : A :=
  if gt (key item) (key cur) then item else cur.

(** [max(xs, key=key)]: the first item is the candidate and a later item
    replaces it only when its key is strictly greater. *)
Definition py_max (xs : list A) : M A :=
  match xs with
  | [] => raise ValueError
  | x :: xs' => ret (fold_left py_max_step xs' x)
  end.
End PyMax.

(** [xs[i]] *)
Definition py_index {A} (xs : list A) (i : nat) : M A :=
  match xs !! i with
  | Some x => ret x
  | None => raise IndexError
  end.

(** ** Geometry utilities *)

(** [euclidean_distances(center_point, other_points)] *)
Definition euclidean_distances (center_point : Point) (other_points : list Point)
  : M (list float) :=
  for_each (seq 0 (length other_points))
    (fun result i =>
       p <- py_index other_points i ;;
       d <- math_sqrt ((fst center_point - fst p) ^ 2
                       + (snd center_point - snd p) ^ 2) ;;
       ret (result ++ [d]))
    [].


(** ** Arrays *)

(** [a.shape[:2]] of a two-dimensional array. *)
Definition shape {A} (a : list (list A)) : nat * nat :=
  (length a, length (hd [] a)).

Definition same_shape {A B} (a : list (list A)) (b : list (list B)) : bool :=
  bool_decide (map length a = map length b).

(** A cell-wise operation on two arrays of one shape. *)
Definition grid_map2 {A B C} (f : A -> B -> C)
    (a : list (list A)) (b : list (list B)) : list (list C) :=
  zip_with (zip_with f) a b.

(** [np.zeros(shp, dtype="uint8")] *)
Definition np_zeros (shp : nat * nat) : Image :=
  replicate (fst shp) (replicate (snd shp) 0).

(** [a.astype("float")]: every 8-bit cell widened to binary64. *)
Definition astype_float (a : Image) : FloatGrid :=
  map (map float_of_int) a.

(** The cast of one binary64 cell to an 8-bit cell: the fraction is
    dropped (toward zero) and the integer reduced to 8 bits. *)
Definition uint8_of_float (f : float) : Z :=
  match SFtrunc (Prim2SF f) with
  | Some z => z mod 256
  | None => 0
  end.

(** [a.astype("uint8")] *)
Definition astype_uint8 (a : FloatGrid) : Image :=
  map (map uint8_of_float) a.

(** The first index of the smallest element. *)
Fixpoint argmin_from (best_i : nat) (best : Z) (i : nat) (xs : list Z) : nat :=
  match xs with
  | [] => best_i
  | x :: xs' =>
      if x <? best then argmin_from i x (S i) xs'
      else argmin_from best_i best (S i) xs'
  end.

(** The first index of the largest element. *)
Fixpoint argmax_from (best_i : nat) (best : Z) (i : nat) (xs : list Z) : nat :=
  match xs with
  | [] => best_i
  | x :: xs' =>
      if best <? x then argmax_from i x (S i) xs'
      else argmax_from best_i best (S i) xs'
  end.

(** [xs.argmin()] *)
Definition np_argmin (xs : list Z) : M nat :=
  match xs with
  | [] => raise ValueError
  | x :: xs' => ret (argmin_from 0 x 1 xs')
  end.

(** [xs.argmax()] *)
Definition np_argmax (xs : list Z) : M nat :=
  match xs with
  | [] => raise ValueError
  | x :: xs' => ret (argmax_from 0 x 1 xs')
  end.

(** ** The store of arrays *)

(** A new array, at a reference that was not in use. *)
Definition alloc (a : ndarray) : M ref :=
  fun s => Ok (length (heap s)) (mkState (background s) (heap s ++ [a])).

Definition read_image (r : ref) : M Image :=
  fun s => match heap s !! r with
           | Some (U8 img) => Ok img s
           | _ => Raise TypeError s
           end.

Definition read_contour (r : ref) : M Contour :=
  fun s => match heap s !! r with
           | Some (I32 pts) => Ok pts s
           | _ => Raise TypeError s
           end.

(** Overwrite the array at [r] in place. *)
Definition write (r : ref) (a : ndarray) : M unit :=
  fun s => Ok tt (mkState (background s) (<[r := a]> (heap s))).

(** [a.copy()] *)
Definition copy_image (r : ref) : M ref :=
  img <- read_image r ;; alloc (U8 img).

(** ** Cell-wise OpenCV primitives *)

(** [cv2.accumulateWeighted(src, dst, alpha)]: the new content of [dst],
    [(1 - alpha) * dst + alpha * src] in every cell. *)
Definition accumulateWeighted (src : Image) (dst : FloatGrid) (alpha : float)
  : M FloatGrid :=
  if same_shape src dst
  then ret (grid_map2 (fun s d => ((1 - alpha) * d + alpha * float_of_int s)%float)
                      src dst)
  else raise cv2_error.

(** [cv2.absdiff(a, b)] on 8-bit images. *)
Definition absdiff (a b : Image) : M Image :=
  if same_shape a b
  then ret (grid_map2 (fun x y => Z.abs (x - y)) a b)
  else raise cv2_error.

(** [cv2.threshold(src, thresh, maxval, cv2.THRESH_BINARY)[1]] *)
Definition threshold_binary (src : Image) (thresh maxval : Z) : Image :=
  map (map (fun c => if thresh <? c then maxval else 0)) src.

(** The cells of [src1 & src2] where the mask is set, 0 elsewhere. *)
Definition and_under_mask (a b m : Image) : Image :=
  grid_map2 (fun ab k => if k =? 0 then 0 else ab) (grid_map2 Z.land a b) m.

(** [cv2.bitwise_and(src1, src2, mask=mask)]: the result is a new array. *)
Definition bitwise_and (src1 src2 mask : ref) : M ref :=
  a <- read_image src1 ;;
  b <- read_image src2 ;;
  m <- read_image mask ;;
  if same_shape a b && same_shape a m
  then alloc (U8 (and_under_mask a b m))
  else raise cv2_error.

Inductive RetrievalMode : Type := RETR_EXTERNAL.
Inductive ApproxMethod : Type := CHAIN_APPROX_NONE | CHAIN_APPROX_SIMPLE.

(** What the loop shows and which core operations it calls, in order. *)
Inductive Event : Type :=
| CallAccumulate (gray : Image)
| CallSegment (gray : Image)
| CallCountFingers
| PutTextWait
| PutTextCount (fingers : Z)
| DrawContours (c : Contour)
| ImShow (window : string).

(** [background = None] at import time, no arrays yet. *)
Definition initial_state : State := mkState None [].

(** ** Vocabulary of the statements *)





(** The cell at row [i], column [j]. *)
Definition cell {A} (a : list (list A)) (i j : nat) : option A :=
  match a !! i with
  | Some row => row !! j
  | None => None
  end.



(** The values of an 8-bit cell. *)
Definition uint8_values : list Z := map Z.of_nat (seq 0 256).




(** All rows have the length of the first one. *)
Definition rectangular {A} (a : list (list A)) : Prop :=
  Forall (fun row => length row = length (hd [] a)) a.

(** What a run produced, without the state. *)
Definition outcome {A} (r : Res A) : exn + A :=
  match r with
  | Ok a _ => inr a
  | Raise e _ => inl e
  end.

(** The state a run ended in. *)
Definition final_state {A} (r : Res A) : State :=
  match r with
  | Ok _ s => s
  | Raise _ s => s
  end.

(** Code that neither reads nor writes the state. *)
Definition stateless {A} (m : M A) : Prop :=
  forall s, final_state (m s) = s /\ forall s', outcome (m s') = outcome (m s).

(** ** A small concrete instance

    Stand-ins for the OpenCV primitives on tiny images, used to run the
    program on concrete inputs. *)
Module Sample.

Definition flip (f : Image) (code : Z) : Image := f.
Definition crop (f : Image) (top bottom right_ left_ : Z) : Image := f.
Definition cvtColor_gray (f : Image) : Image := f.
Definition GaussianBlur (g : Image) (ksize : Z * Z) (sigma : Z) : Image := g.

(** One three-point contour when the image has a foreground cell. *)
Definition findContours (img : Image) (mode : RetrievalMode)
    (method : ApproxMethod) : list Contour :=
  if existsb (existsb (fun c => negb (c =? 0))) img
  then [[(0, 0); (1, 0); (1, 1)]]
  else [].

(** The source image is wiped. *)
Definition findContours_leaves (img : Image) : Image :=
  map (map (fun _ => 0)) img.

Definition contourArea (c : Contour) : float :=
  float_of_int (Z.of_nat (length c)).
Definition convexHull (c : Contour) : Contour := c.
Definition boundingRect (c : Contour) : Z * Z * Z * Z := (0, 0, 2, 2).
Definition circle_covers (center : Point) (radius thickness : Z)
    (row col : nat) : bool := true.

(** A 2 x 2 foreground block and a diamond-shaped hand contour. *)
Definition thresholded : Image := [[255; 255]; [255; 255]].
Definition hand_segment : Contour := [(2, 0); (4, 3); (2, 6); (0, 3)].
Definition state : State :=
  mkState None [U8 thresholded; I32 hand_segment].

(** Two 1 x 2 frames. *)
Definition frame1 : Image := [[10; 200]].
Definition frame2 : Image := [[20; 100]].

Definition probe : Image := [[27]].

End Sample.

(** Code that leaves the background model as it is and never fails for
    want of one. *)
Definition benign {A} (m : M A) : Prop :=
  forall s, background (final_state (m s)) = background s
            /\ forall s', m s <> Raise AttributeError s'.

(** What a frame of the calibration phase does: it feeds the background
    model and shows the waiting text, and does not segment. *)
Definition calibrating (evs : list Event) : Prop :=
  In PutTextWait evs
  /\ (exists gray, In (CallAccumulate gray) evs)
  /\ (forall gray, ~ In (CallSegment gray) evs).

(** What a frame of the detection phase does: it segments, and neither
    feeds the background model nor shows the waiting text. *)
Definition detecting (evs : list Event) : Prop :=
  (exists gray, In (CallSegment gray) evs)
  /\ ~ In PutTextWait evs
  /\ (forall gray, ~ In (CallAccumulate gray) evs).



(** Every cell is an 8-bit value. *)
Definition uint8_image (a : Image) : Prop :=
  Forall (Forall (fun c => 0 <= c <= 255)) a.

(** Every cell is 0 or 255. *)
Definition binary_image (a : Image) : Prop :=
  Forall (Forall (fun c => c = 0 \/ c = 255)) a.



(** The key that [cv2.waitKey] reported is Esc. *)
Definition is_esc (key : Z) : bool := Z.land key 255 =? 27.

(** Region of interest *)
Definition roi_top : Z := 20.
Definition roi_bottom : Z := 300.
Definition roi_right : Z := 300.
Definition roi_left : Z := 600.

(** ** The program *)

Section Program.

(** *** OpenCV primitives taken as parameters *)

(** Captured colour frames. *)
Variable ColorImage : Type.
(** [cv2.flip(frame, code)] *)
Variable flip : ColorImage -> Z -> ColorImage.
(** [frame[top:bottom, right:left]] *)
Variable crop : ColorImage -> Z -> Z -> Z -> Z -> ColorImage.
(** [cv2.cvtColor(roi, cv2.COLOR_BGR2GRAY)] *)
Variable cvtColor_gray : ColorImage -> Image.
(** [cv2.GaussianBlur(gray, ksize, sigma)] *)
Variable GaussianBlur : Image -> Z * Z -> Z -> Image.

(** The contours [cv2.findContours] extracts from an image. *)
Variable findContours : Image -> RetrievalMode -> ApproxMethod -> list Contour.
(** What [cv2.findContours] leaves in the image it was given (OpenCV
    before 3.2 overwrites its source image while it follows borders). *)
Variable findContours_leaves : Image -> Image.
(** [cv2.contourArea(c)] *)
Variable contourArea : Contour -> float.
(** [cv2.convexHull(c)] *)
Variable convexHull : Contour -> Contour.
(** [cv2.boundingRect(c)], as (x, y, w, h). *)
Variable boundingRect : Contour -> Z * Z * Z * Z.
(** Whether the circle outline of the given centre, radius and thickness
    covers the cell at (row, column). *)
Variable circle_covers : Point -> Z -> Z -> nat -> nat -> bool.

(** [cv2.findContours(image, mode, method)]: the contours; the image
    passed in is overwritten. *)
Definition cv2_findContours (image : ref) (mode : RetrievalMode)
    (method : ApproxMethod) : M (list Contour) :=
  img <- read_image image ;;
  write image (U8 (findContours_leaves img)) ;;;
  ret (findContours img mode method).

(** The image with the circle outline painted over it. *)
Definition draw_circle (a : Image) (center : Point)
    (radius color thickness : Z) : Image :=
  imap (fun i row =>
          imap (fun j c =>
                  if circle_covers center radius thickness i j
                  then color else c) row) a.

(** [cv2.circle(img, center, radius, color, thickness)]: draws into [img]
    in place. *)
Definition cv2_circle (img : ref) (center : Point) (radius color thickness : Z)
  : M unit :=
  a <- read_image img ;;
  write img (U8 (draw_circle a center radius color thickness)).

(** [cv2.flip] applied to what [cam.read()] delivered; a failed capture
    delivers no frame and OpenCV rejects it. *)
Definition cv2_flip (frame : option ColorImage) (code : Z) : M ColorImage :=
  match frame with
  | Some f => ret (flip f code)
  | None => raise cv2_error
  end.

(** *** Background model *)

(** [accumulate(frame, accumulated_weight)]; the result [tt] is Python's
    [None], which is all the function ever returns. *)
Definition accumulate (frame : Image) (accumulated_weight : float) : M unit :=
  b <- get_background ;;
  match b with
  | None =>
      set_background (Some (astype_float frame)) ;;;
      ret tt
  | Some bg =>
      bg' <- accumulateWeighted frame bg accumulated_weight ;;
      set_background (Some bg') ;;;
      ret tt
  end.

(** *** Foreground segmenter *)

(** [segment(frame, threshold)]: [None], or references to the thresholded
    image and to the selected contour. *)
Definition segment (frame : Image) (threshold : Z) : M (option (ref * ref)) :=
  b <- get_background ;;
  match b with
  | None => raise AttributeError
  | Some bg =>
      diff <- absdiff (astype_uint8 bg) frame ;;
      thresholded <- alloc (U8 (threshold_binary diff threshold 255)) ;;
      tmp <- copy_image thresholded ;;
      contours <- cv2_findContours tmp RETR_EXTERNAL CHAIN_APPROX_SIMPLE ;;
      if negb (length contours =? 0)%nat
      then
        c <- py_max contourArea float_gt contours ;;
        hand_segment <- alloc (I32 c) ;;
        ret (Some (thresholded, hand_segment))
      else ret None
  end.

(** *** Finger counter *)

(** The four extreme points of the hull: top, bottom, left, right. *)
Definition extreme_points (conv_hull : Contour)
  : M (Point * Point * Point * Point) :=
  i_top <- np_argmin (map snd conv_hull) ;;
  top <- py_index conv_hull i_top ;;
  i_bottom <- np_argmax (map snd conv_hull) ;;
  bottom <- py_index conv_hull i_bottom ;;
  i_left <- np_argmin (map fst conv_hull) ;;
  left_ <- py_index conv_hull i_left ;;
  i_right <- np_argmax (map fst conv_hull) ;;
  right_ <- py_index conv_hull i_right ;;
  ret (top, bottom, left_, right_).

(** The sampling circle of a hull: (cX, cY, radius, circumference). *)
Definition hand_circle (conv_hull : Contour) : M (Z * Z * Z * float) :=
  e <- extreme_points conv_hull ;;
  let '(top, bottom, left_, right_) := e in
  let cX := (fst left_ + fst right_) / 2 in
  let cY := (snd top + snd bottom) / 2 in
  let circle_center := (cX, cY) in
  let outer_points := [top; left_; bottom; right_] in
  distances <- euclidean_distances circle_center outer_points ;;
  max_distance <- py_max id float_gt distances ;;
  radius <- py_int (0x1.999999999999ap-1 * max_distance)%float ;;
  let circumference := (2 * np_pi * float_of_int radius)%float in
  ret (cX, cY, radius, circumference).

(** [out_of_wrist]; the integer [y + h] is compared through its
    conversion, which is exact for integers below 2^53. *)
Definition out_of_wrist (cY : Z) (cnt : Contour) : bool :=
  let '(x, y, w, h) := boundingRect cnt in
  float_gt (float_of_int cY + float_of_int cY * 0.25)%float
           (float_of_int (y + h)).

(** [limit_points]; [cnt.shape[0]] is the number of points. *)
Definition limit_points (circumference : float) (cnt : Contour) : bool :=
  float_gt (circumference * 0.25)%float
           (float_of_int (Z.of_nat (length cnt))).

(** [count_fingers(thresholded, hand_segment)] *)
Definition count_fingers (thresholded hand_segment : ref) : M Z :=
  hs <- read_contour hand_segment ;;
  let conv_hull := convexHull hs in
  c <- hand_circle conv_hull ;;
  let '(cX, cY, radius, circumference) := c in
  thr <- read_image thresholded ;;
  circular_roi <- alloc (U8 (np_zeros (shape thr))) ;;
  cv2_circle circular_roi (cX, cY) radius 255 10 ;;;
  circular_roi <- bitwise_and thresholded thresholded circular_roi ;;
  tmp <- copy_image circular_roi ;;
  contours <- cv2_findContours tmp RETR_EXTERNAL CHAIN_APPROX_NONE ;;
  for_each contours
    (fun count cnt =>
       if out_of_wrist cY cnt && limit_points circumference cnt
       then ret (count + 1)
       else ret count)
    0.

(** The circular ROI that [count_fingers] extracts contours from: the
    thresholded image under a ring drawn on a zero image of its shape. *)
Definition circular_roi_image (thr : Image) (center : Point) (radius : Z)
  : Image :=
  and_under_mask thr thr
    (draw_circle (np_zeros (shape thr)) center radius 255 10).

(** *** Session controller *)

(** One pass through the body of [while True], given the frame counter,
    what [cam.read()] delivered and the key [cv2.waitKey] reported:
    the new counter, whether the loop goes on, and what was done.  The
    copy of the frame that is only drawn on and shown ([frame_copy], the
    ROI rectangle) is left out. *)
Definition tick (num_frames : Z) (cam_read : option ColorImage) (key : Z)
  : M (Z * bool * list Event) :=
  frame <- cv2_flip cam_read 1 ;;
  let roi := crop frame roi_top roi_bottom roi_right roi_left in
  let gray := cvtColor_gray roi in
  let gray := GaussianBlur gray (7, 7) 0 in
  evs <-
    (if num_frames <? 60
     then
       accumulate gray 0.5 ;;;
       ret (CallAccumulate gray ::
            (if num_frames <=? 59
             then [PutTextWait; ImShow "Finger Count"]
             else []))
     else
       hand <- segment gray 25 ;;
       match hand with
       | Some (thresholded, hand_segment) =>
           hs <- read_contour hand_segment ;;
           let shifted :=
             map (fun p => (fst p + roi_right, snd p + roi_top)) hs in
           fingers <- count_fingers thresholded hand_segment ;;
           ret [CallSegment gray; DrawContours shifted; CallCountFingers;
                PutTextCount fingers; ImShow "Thesholded"]
       | None => ret [CallSegment gray]
       end) ;;
  let num_frames := num_frames + 1 in
  let k := Z.land key 255 in
  ret (num_frames, negb (k =? 27), evs ++ [ImShow "Finger Count"]).

(** The loop over the frames and keys a session receives. *)
Fixpoint run_session (inputs : list (option ColorImage * Z)) (num_frames : Z)
  : M (Z * list (list Event)) :=
  match inputs with
  | [] => ret (num_frames, [])
  | (cam_read, key) :: rest =>
      r <- tick num_frames cam_read key ;;
      let '(n, continue, evs) := r in
      if (continue : bool)
      then r' <- run_session rest n ;; ret (fst r', evs :: snd r')
      else ret (n, [evs])
  end.

(** ** Running monadic code *)

Lemma bind_Ok {A B} (m : M A) (k : A -> M B) s a s' :
  m s = Ok a s' -> bind m k s = k a s'.
Proof. unfold bind. intros ->. reflexivity. Qed.




(** ** Geometry utilities *)






(** ** Extreme points *)





(** ** The order of binary64 numbers *)









(** ** [max] *)

Section MaxFacts.
Context {A K : Type} (key : A -> K) (gt : K -> K -> bool).
Hypothesis gt_irrefl : forall x, gt x x = false.
Hypothesis gt_chain :
  forall c d m, gt d c = false -> gt m c = true -> gt d m = false.


End MaxFacts.

(** ** Signs and floors of binary64 numbers *)








(** ** The sampling circle *)



(** ** Code that does not touch the state *)

Lemma stateless_ret {A} (a : A) : stateless (ret a).
Proof. intros s. split; reflexivity. Qed.

Lemma stateless_raise {A} e : stateless (@raise A e).
Proof. intros s. split; reflexivity. Qed.

Lemma stateless_bind {A B} (m : M A) (k : A -> M B) :
  stateless m -> (forall a, stateless (k a)) -> stateless (bind m k).
Proof.
  intros Hm Hk s. unfold bind. split.
  - destruct (Hm s) as [Hs _]. destruct (m s) as [a s1|e s1]; simpl in Hs;
      subst s1; [apply Hk|reflexivity].
  - intros s'. destruct (Hm s) as [Hs Ho]. specialize (Ho s').
    destruct (Hm s') as [Hs' _].
    destruct (m s) as [a s1|e s1], (m s') as [a' s1'|e' s1'];
      simpl in *; subst; try congruence.
    injection Ho as ->. apply Hk.
Qed.

Lemma stateless_for_each {A B} (xs : list A) (body : B -> A -> M B) :
  (forall acc x, stateless (body acc x)) ->
  forall acc, stateless (for_each xs body acc).
Proof.
  intros Hbody. induction xs as [|x xs IH]; intros acc; simpl.
  - apply stateless_ret.
  - apply stateless_bind; auto.
Qed.

Lemma stateless_py_index {A} (xs : list A) i : stateless (py_index xs i).
Proof. unfold py_index. destruct (xs !! i); [apply stateless_ret|apply stateless_raise]. Qed.

Lemma stateless_np_argmin xs : stateless (np_argmin xs).
Proof. destruct xs; [apply stateless_raise|apply stateless_ret]. Qed.

Lemma stateless_np_argmax xs : stateless (np_argmax xs).
Proof. destruct xs; [apply stateless_raise|apply stateless_ret]. Qed.

Lemma stateless_math_sqrt n : stateless (math_sqrt n).
Proof. unfold math_sqrt. destruct (n <? 0); [apply stateless_raise|apply stateless_ret]. Qed.

Lemma stateless_py_int x : stateless (py_int x).
Proof.
  unfold py_int. destruct (Prim2SF x); simpl;
    solve [apply stateless_raise | apply stateless_ret].
Qed.

Lemma stateless_py_max {A K} (key : A -> K) gt xs : stateless (py_max key gt xs).
Proof. destruct xs; [apply stateless_raise|apply stateless_ret]. Qed.

Lemma stateless_euclidean_distances c pts : stateless (euclidean_distances c pts).
Proof.
  unfold euclidean_distances. apply stateless_for_each. intros acc i.
  apply stateless_bind; [apply stateless_py_index|]. intros p.
  apply stateless_bind; [apply stateless_math_sqrt|]. intros d.
  apply stateless_ret.
Qed.

Lemma stateless_extreme_points hull : stateless (extreme_points hull).
Proof.
  unfold extreme_points.
  repeat (apply stateless_bind;
          [first [apply stateless_np_argmin | apply stateless_np_argmax
                 | apply stateless_py_index]|intros ?]).
  apply stateless_ret.
Qed.

Lemma stateless_hand_circle hull : stateless (hand_circle hull).
Proof.
  unfold hand_circle.
  apply stateless_bind; [apply stateless_extreme_points|].
  intros [[[top bottom] lft] rgt].
  apply stateless_bind; [apply stateless_euclidean_distances|]. intros ds.
  apply stateless_bind; [apply stateless_py_max|]. intros m.
  apply stateless_bind; [apply stateless_py_int|]. intros r.
  apply stateless_ret.
Qed.

(** ** Running [count_fingers] *)

Lemma insert_last {A} (l : list A) (x y : A) :
  <[length l := y]> (l ++ [x]) = l ++ [y].
Proof.
  rewrite insert_app_r_alt by lia. rewrite Nat.sub_diag. reflexivity.
Qed.

Lemma lookup_last {A} (l : list A) (x : A) : (l ++ [x]) !! length l = Some x.
Proof. apply list_lookup_middle. reflexivity. Qed.

Lemma count_loop cY circumference contours : forall count s,
  for_each contours
    (fun count cnt =>
       if out_of_wrist cY cnt && limit_points circumference cnt
       then ret (count + 1)
       else ret count)
    count s
  = Ok (count + Z.of_nat (length (List.filter
          (fun cnt => out_of_wrist cY cnt && limit_points circumference cnt)
          contours))) s.
Proof.
  induction contours as [|cnt contours IH]; intros count s; simpl.
  - rewrite Z.add_0_r. reflexivity.
  - unfold bind.
    destruct (out_of_wrist cY cnt && limit_points circumference cnt);
      simpl; unfold ret at 1; rewrite IH; f_equal; lia.
Qed.

Lemma count_fingers_run t h s thr hs :
  heap s !! t = Some (U8 thr) ->
  heap s !! h = Some (I32 hs) ->
  count_fingers t h s =
    match hand_circle (convexHull hs) s with
    | Raise e _ => Raise e s
    | Ok (cX, cY, radius, circumference) _ =>
        let ring := draw_circle (np_zeros (shape thr)) (cX, cY) radius 255 10 in
        let roi := and_under_mask thr thr ring in
        if same_shape thr ring
        then
          Ok (Z.of_nat (length (List.filter
                (fun cnt => out_of_wrist cY cnt
                            && limit_points circumference cnt)
                (findContours roi RETR_EXTERNAL CHAIN_APPROX_NONE))))
             (mkState (background s)
                (heap s ++ [U8 ring; U8 roi; U8 (findContours_leaves roi)]))
        else Raise cv2_error (mkState (background s) (heap s ++ [U8 ring]))
    end.
Proof.
  intros Ht Hh. unfold count_fingers.
  rewrite (bind_Ok _ _ s hs s) by (unfold read_contour; rewrite Hh; reflexivity).
  destruct (stateless_hand_circle (convexHull hs) s) as [Hst _].
  unfold bind at 1.
  destruct (hand_circle (convexHull hs) s) as [[[[cX cY] radius] circ] s1|e s1];
    simpl in Hst; subst s1; [|reflexivity].
  rewrite (bind_Ok _ _ s thr s) by (unfold read_image; rewrite Ht; reflexivity).
  assert (Hlt : (t < length (heap s))%nat) by (eapply lookup_lt_Some; eauto).
  unfold bind at 1, alloc at 1.
  unfold bind at 1, cv2_circle, bind at 1, read_image at 1. simpl heap.
  rewrite lookup_last. unfold write at 1. simpl heap. simpl background.
  rewrite insert_last.
  set (ring := draw_circle (np_zeros (shape thr)) (cX, cY) radius 255 10).
  unfold bind at 1, bitwise_and.
  unfold bind at 1, read_image at 1. simpl heap.
  rewrite (lookup_app_l_Some _ _ _ _ Ht).
  unfold bind at 1, read_image at 1. simpl heap.
  rewrite (lookup_app_l_Some _ _ _ _ Ht).
  unfold bind at 1, read_image at 1. simpl heap.
  rewrite lookup_last.
  assert (Hsame : same_shape thr thr = true)
    by (unfold same_shape; apply bool_decide_eq_true; reflexivity).
  rewrite Hsame. cbv zeta.
  destruct (same_shape thr ring); cbn [andb]; [|reflexivity].
  unfold alloc at 1. simpl heap. simpl background.
  rewrite length_app. simpl length. rewrite <- app_assoc. simpl app.
  set (roi := and_under_mask thr thr ring).
  unfold bind at 1, copy_image, bind at 1, read_image at 1. simpl heap.
  replace (length (heap s) + 1)%nat with (length (heap s ++ [U8 ring])).
  2:{ rewrite length_app. reflexivity. }
  replace (heap s ++ [U8 ring; U8 roi]) with ((heap s ++ [U8 ring]) ++ [U8 roi]).
  2:{ rewrite <- app_assoc. reflexivity. }
  rewrite lookup_last.
  unfold alloc at 1. simpl heap. simpl background.
  unfold bind at 1, cv2_findContours, bind at 1, read_image at 1. simpl heap.
  rewrite lookup_last.
  unfold bind at 1, write at 1. simpl heap. simpl background.
  rewrite insert_last. unfold ret at 1.
  rewrite count_loop. rewrite Z.add_0_l.
  rewrite <- !app_assoc. reflexivity.
Qed.

(** ** The finger counter *)






Lemma count_fingers_grows t h s :
  exists ext,
    final_state (count_fingers t h s)
    = mkState (background s) (heap s ++ ext).
Proof.
  assert (Hsame : s = mkState (background s) (heap s ++ [])).
  { destruct s as [b hp]. simpl. rewrite app_nil_r. reflexivity. }
  destruct (heap s !! h) as [[img|hs]|] eqn:Hh;
    try (exists []; unfold count_fingers, bind at 1, read_contour at 1;
         rewrite Hh; simpl; exact Hsame).
  destruct (stateless_hand_circle (convexHull hs) s) as [Hst _].
  destruct (heap s !! t) as [[thr|pts]|] eqn:Ht.
  - rewrite (count_fingers_run _ _ _ _ _ Ht Hh).
    destruct (hand_circle (convexHull hs) s) as [[[[cX cY] radius] circ] s1|e s1];
      [|exists []; exact Hsame].
    cbv zeta. destruct (same_shape thr _); eexists; reflexivity.
  - exists []. unfold count_fingers.
    rewrite (bind_Ok _ _ s hs s) by (unfold read_contour; rewrite Hh; reflexivity).
    unfold bind at 1.
    destruct (hand_circle (convexHull hs) s) as [[[[cX cY] radius] circ] s1|e s1];
      simpl in Hst; subst s1; [|exact Hsame].
    unfold bind at 1, read_image at 1. rewrite Ht. exact Hsame.
  - exists []. unfold count_fingers.
    rewrite (bind_Ok _ _ s hs s) by (unfold read_contour; rewrite Hh; reflexivity).
    unfold bind at 1.
    destruct (hand_circle (convexHull hs) s) as [[[[cX cY] radius] circ] s1|e s1];
      simpl in Hst; subst s1; [|exact Hsame].
    unfold bind at 1, read_image at 1. rewrite Ht. exact Hsame.
Qed.

(** C10. [count_fingers] leaves both of its arguments as they were: after
    the call, whatever its outcome, the thresholded image and the hand
    contour hold what they held before, for every way the circle is drawn
    and whatever contour extraction leaves in the image it is given. *)
Theorem count_fingers_keeps_inputs (thresholded hand_segment : ref)
    (s : State) (a b : ndarray) :
  heap s !! thresholded = Some a ->
  heap s !! hand_segment = Some b ->
  heap (final_state (count_fingers thresholded hand_segment s)) !! thresholded
    = Some a
  /\ heap (final_state (count_fingers thresholded hand_segment s)) !! hand_segment
    = Some b.
Proof.
  intros Ha Hb.
  destruct (count_fingers_grows thresholded hand_segment s) as [ext ->].
  simpl. split; apply lookup_app_l_Some; assumption.
Qed.

Lemma count_fingers_outcome t h s t' h' s' thr hs :
  heap s !! t = Some (U8 thr) -> heap s !! h = Some (I32 hs) ->
  heap s' !! t' = Some (U8 thr) -> heap s' !! h' = Some (I32 hs) ->
  outcome (count_fingers t' h' s') = outcome (count_fingers t h s).
Proof.
  intros Ht Hh Ht' Hh'.
  rewrite (count_fingers_run _ _ _ _ _ Ht Hh).
  rewrite (count_fingers_run _ _ _ _ _ Ht' Hh').
  destruct (stateless_hand_circle (convexHull hs) s) as [_ Ho].
  specialize (Ho s').
  destruct (hand_circle (convexHull hs) s) as [[[[cX cY] radius] circ] s1|e s1],
           (hand_circle (convexHull hs) s') as [[[[cX' cY'] radius'] circ'] s1'|e' s1'];
    simpl in Ho; try discriminate.
  - injection Ho as -> -> -> ->. cbv zeta.
    destruct (same_shape thr _); reflexivity.
  - injection Ho as ->. reflexivity.
Qed.

(** C8. The count is a function of the contents of the two arguments
    alone: a second call on the same (mask, contour) pair, made in the
    state the first call left, has the outcome of the first, and so has a
    call in any other state (any background model, any other arrays) in
    which the two arguments hold the same contents. *)
Theorem count_fingers_pure (thresholded hand_segment : ref) (s : State)
    (thr : Image) (hs : Contour) :
  heap s !! thresholded = Some (U8 thr) ->
  heap s !! hand_segment = Some (I32 hs) ->
  outcome (count_fingers thresholded hand_segment
             (final_state (count_fingers thresholded hand_segment s)))
    = outcome (count_fingers thresholded hand_segment s)
  /\ background (final_state (count_fingers thresholded hand_segment s))
     = background s
  /\ forall t' h' s',
       heap s' !! t' = Some (U8 thr) ->
       heap s' !! h' = Some (I32 hs) ->
       outcome (count_fingers t' h' s')
       = outcome (count_fingers thresholded hand_segment s).
Proof.
  intros Ht Hh. split; [|split].
  - apply (count_fingers_outcome _ _ _ _ _ _ thr hs); try assumption.
    + destruct (count_fingers_grows thresholded hand_segment s) as [ext ->].
      simpl. apply lookup_app_l_Some. exact Ht.
    + destruct (count_fingers_grows thresholded hand_segment s) as [ext ->].
      simpl. apply lookup_app_l_Some. exact Hh.
  - destruct (count_fingers_grows thresholded hand_segment s) as [ext ->].
    reflexivity.
  - intros t' h' s' Ht' Hh'.
    apply (count_fingers_outcome _ _ _ _ _ _ thr hs); assumption.
Qed.

(** ** Cells of arrays *)


Lemma cell_grid_map2 {A B C} (f : A -> B -> C) a b i j :
  cell (grid_map2 f a b) i j =
    match cell a i j, cell b i j with
    | Some x, Some y => Some (f x y)
    | _, _ => None
    end.
Proof.
  unfold cell, grid_map2. rewrite lookup_zip_with.
  destruct (a !! i) as [ra|]; simpl; [|reflexivity].
  destruct (b !! i) as [rb|]; simpl; [|destruct (ra !! j); reflexivity].
  rewrite lookup_zip_with.
  destruct (ra !! j); simpl; [|reflexivity].
  destruct (rb !! j); reflexivity.
Qed.

Lemma map_length_grid_map2 {A B C} (f : A -> B -> C) a b :
  map length a = map length b ->
  map length (grid_map2 f a b) = map length b.
Proof.
  unfold grid_map2. revert b. induction a as [|ra a IH]; intros [|rb b] H;
    simpl in *; try discriminate; [reflexivity|].
  injection H as Hr H. rewrite length_zip_with, Hr, Nat.min_id.
  f_equal. apply IH. exact H.
Qed.


Lemma same_shape_true {A B} (a : list (list A)) (b : list (list B)) :
  map length a = map length b -> same_shape a b = true.
Proof. intros H. unfold same_shape. apply bool_decide_eq_true. exact H. Qed.

(** ** Exact values of 8-bit cells in binary64 *)


Lemma uint8_values_In f : 0 <= f <= 255 -> In f uint8_values.
Proof.
  intros Hf. unfold uint8_values. apply in_map_iff. exists (Z.to_nat f).
  split; [lia|]. apply in_seq. lia.
Qed.



Section MaxFirst.
Context {A K : Type} (key : A -> K) (gt : K -> K -> bool) (ok : K -> Prop).
Hypothesis gt_before :
  forall c d m, ok d -> gt d c = false -> gt m c = true -> gt m d = true.
Hypothesis gt_trans :
  forall c d m, gt d c = true -> gt m d = true -> gt m c = true.

End MaxFirst.


(** ** The background model *)

Lemma accumulate_first frame weight s :
  background s = None ->
  accumulate frame weight s
  = Ok tt (mkState (Some (astype_float frame)) (heap s)).
Proof.
  intros Hb. unfold accumulate, bind, get_background. rewrite Hb. reflexivity.
Qed.

Lemma accumulate_next frame weight s bg :
  background s = Some bg ->
  map length frame = map length bg ->
  accumulate frame weight s
  = Ok tt (mkState
             (Some (grid_map2
                      (fun f b => ((1 - weight) * b + weight * float_of_int f)%float)
                      frame bg))
             (heap s)).
Proof.
  intros Hb Hshape. unfold accumulate, bind, get_background. rewrite Hb.
  unfold accumulateWeighted. rewrite (same_shape_true _ _ Hshape). reflexivity.
Qed.



(** ** The foreground segmenter *)

Lemma map_length_astype_uint8 bg :
  map length (astype_uint8 bg) = map length bg.
Proof.
  unfold astype_uint8. rewrite map_map. apply map_ext. intros row.
  apply length_map.
Qed.

Lemma segment_run frame threshold s bg :
  background s = Some bg ->
  map length bg = map length frame ->
  let mask :=
    threshold_binary
      (grid_map2 (fun b f => Z.abs (b - f)) (astype_uint8 bg) frame)
      threshold 255 in
  let contours := findContours mask RETR_EXTERNAL CHAIN_APPROX_SIMPLE in
  segment frame threshold s =
    match contours with
    | [] => Ok None
              (mkState (background s)
                 (heap s ++ [U8 mask; U8 (findContours_leaves mask)]))
    | x :: xs =>
        Ok (Some (length (heap s), S (S (length (heap s)))))
           (mkState (background s)
              (heap s ++ [U8 mask; U8 (findContours_leaves mask);
                          I32 (fold_left (py_max_step contourArea float_gt) xs x)]))
    end.
Proof.
  intros Hb Hshape mask contours.
  unfold segment, bind at 1, get_background. rewrite Hb.
  unfold bind at 1, absdiff.
  rewrite same_shape_true
    by (rewrite map_length_astype_uint8; exact Hshape).
  unfold ret at 1. fold mask.
  unfold bind at 1, alloc at 1.
  unfold bind at 1, copy_image, bind at 1, read_image at 1. simpl heap.
  rewrite lookup_last. unfold alloc at 1. simpl heap. simpl background.
  unfold bind at 1, cv2_findContours, bind at 1, read_image at 1. simpl heap.
  replace (length (heap s ++ [U8 mask])) with (S (length (heap s)))
    by (rewrite length_app; simpl; lia).
  replace (S (length (heap s))) with (length (heap s ++ [U8 mask])) at 1
    by (rewrite length_app; simpl; lia).
  rewrite lookup_last.
  unfold bind at 1, write at 1. simpl heap. simpl background.
  replace (S (length (heap s))) with (length (heap s ++ [U8 mask]))
    by (rewrite length_app; simpl; lia).
  rewrite insert_last. unfold ret at 1. fold contours.
  destruct contours as [|x xs]; simpl.
  - unfold ret. rewrite ?Hb, <- app_assoc. reflexivity.
  - unfold bind, ret, alloc. simpl.
    rewrite ?Hb, !length_app. simpl. rewrite <- !app_assoc. simpl.
    repeat f_equal; lia.
Qed.


(** ** Code that keeps the background model *)

Lemma benign_ret {A} (a : A) : benign (ret a).
Proof. intros s. split; [reflexivity|]. intros s' H. discriminate. Qed.

Lemma benign_raise {A} e : e <> AttributeError -> benign (@raise A e).
Proof.
  intros He s. split; [reflexivity|]. intros s' H. unfold raise in H.
  injection H as H _. contradiction.
Qed.

Lemma benign_bind {A B} (m : M A) (k : A -> M B) :
  benign m -> (forall a, benign (k a)) -> benign (bind m k).
Proof.
  intros Hm Hk s. unfold bind. destruct (Hm s) as [Hb Hn].
  destruct (m s) as [a s1|e s1] eqn:Hms; simpl in Hb.
  - destruct (Hk a s1) as [Hb' Hn']. split; [congruence|exact Hn'].
  - split; [exact Hb|]. intros s' H. apply (Hn s'). congruence.
Qed.

Lemma benign_for_each {A B} (xs : list A) (body : B -> A -> M B) :
  (forall acc x, benign (body acc x)) ->
  forall acc, benign (for_each xs body acc).
Proof.
  intros Hbody. induction xs as [|x xs IH]; intros acc; simpl.
  - apply benign_ret.
  - apply benign_bind; auto.
Qed.

Lemma benign_alloc a : benign (alloc a).
Proof. intros s. split; [reflexivity|]. intros s' H. discriminate. Qed.

Lemma benign_write r a : benign (write r a).
Proof. intros s. split; [reflexivity|]. intros s' H. discriminate. Qed.

Lemma benign_read_image r : benign (read_image r).
Proof.
  intros s. unfold read_image.
  destruct (heap s !! r) as [[img|pts]|]; simpl; split; try reflexivity;
    intros s' H; discriminate.
Qed.

Lemma benign_read_contour r : benign (read_contour r).
Proof.
  intros s. unfold read_contour.
  destruct (heap s !! r) as [[img|pts]|]; simpl; split; try reflexivity;
    intros s' H; discriminate.
Qed.

Lemma benign_hand_circle hull : benign (hand_circle hull).
Proof.
  assert (Hr : forall A e, e <> AttributeError -> benign (@raise A e))
    by (intros; apply benign_raise; assumption).
  unfold hand_circle, extreme_points, euclidean_distances.
  repeat first
    [ apply benign_ret
    | apply Hr; discriminate
    | apply benign_bind; [|intros ?]
    | apply benign_for_each; intros ? ?
    | match goal with
      | |- benign (np_argmin ?xs) => destruct xs; simpl
      | |- benign (np_argmax ?xs) => destruct xs; simpl
      | |- benign (py_index ?xs ?i) => unfold py_index; destruct (xs !! i)
      | |- benign (math_sqrt ?n) => unfold math_sqrt; destruct (n <? 0)
      | |- benign (py_max _ _ ?xs) => destruct xs; simpl
      | |- benign (py_int ?x) => unfold py_int; destruct (Prim2SF x); simpl
      | |- benign (let '(_, _) := ?p in _) => destruct p
      | |- benign (match ?o with Some _ => _ | None => _ end) => destruct o
      end ].
Qed.

Lemma benign_count_fingers t h : benign (count_fingers t h).
Proof.
  unfold count_fingers, cv2_circle, bitwise_and, copy_image, cv2_findContours.
  repeat first
    [ apply benign_ret
    | apply benign_alloc
    | apply benign_write
    | apply benign_read_image
    | apply benign_read_contour
    | apply benign_hand_circle
    | apply benign_raise; discriminate
    | apply benign_bind; [|intros ?]
    | apply benign_for_each; intros ? ?
    | match goal with
      | |- benign (let '(_, _) := ?p in _) => destruct p
      | |- benign (if ?b then _ else _) => destruct b
      end ].
Qed.

(** ** The session controller *)

Lemma segment_keeps_background frame threshold s :
  background (final_state (segment frame threshold s)) = background s
  /\ (background s <> None ->
      forall s', segment frame threshold s <> Raise AttributeError s').
Proof.
  unfold segment.
  rewrite !(bind_Ok get_background _ s (background s) s) by reflexivity.
  destruct (background s) as [bg|] eqn:Hbg; [|split; [simpl; auto|congruence]].
  match goal with
  | |- context [final_state (?m s)] => assert (Hm : benign m)
  end.
  { unfold absdiff, copy_image, cv2_findContours.
    repeat first
      [ apply benign_ret
      | apply benign_alloc
      | apply benign_write
      | apply benign_read_image
      | apply benign_raise; discriminate
      | apply benign_bind; [|intros ?]
      | match goal with
        | |- benign (if ?b then _ else _) => destruct b
        | |- benign (py_max _ _ ?xs) => destruct xs; simpl
        end ]. }
  destruct (Hm s) as [H1 H2]. split; [congruence|]. intros _. exact H2.
Qed.

Lemma accumulate_sets frame weight s :
  match accumulate frame weight s with
  | Ok _ s' => background s' <> None
  | Raise e _ => e <> AttributeError
  end.
Proof.
  unfold accumulate, bind at 1, get_background.
  destruct (background s) as [bg|]; [|simpl; discriminate].
  unfold bind at 1, accumulateWeighted.
  destruct (same_shape frame bg); simpl; discriminate.
Qed.

Lemma tick_step num_frames cam_read key s :
  match tick num_frames cam_read key s with
  | Ok (n, _, evs) s' =>
      n = num_frames + 1
      /\ (num_frames < 60 -> calibrating evs /\ background s' <> None)
      /\ (60 <= num_frames -> detecting evs /\ background s' = background s)
  | Raise e _ =>
      (num_frames < 60 \/ background s <> None) -> e <> AttributeError
  end.
Proof.
  destruct cam_read as [f|]; [|simpl; discriminate].
  unfold tick, cv2_flip, bind at 1, ret at 1.
  set (gray := GaussianBlur _ _ _).
  unfold bind at 1. destruct (Z.ltb_spec num_frames 60) as [Hlt|Hge].
  - unfold bind at 1. pose proof (accumulate_sets gray 0.5 s) as Hacc.
    destruct (accumulate gray 0.5 s) as [[] s1|e s1]; [|intros _; exact Hacc].
    replace (num_frames <=? 59) with true by (symmetry; apply Z.leb_le; lia).
    simpl. split; [reflexivity|]. split; [|lia]. intros _. split; [|exact Hacc].
    split; [simpl; auto|]. split; [exists gray; simpl; auto|].
    intros g [H|[H|[H|[H|[]]]]]; discriminate.
  - unfold bind at 1.
    destruct (segment_keeps_background gray 25 s) as [Hbg Hattr].
    destruct (segment gray 25 s) as [[[t h]|] s1|e s1] eqn:Hseg; simpl in Hbg.
    + unfold bind at 1.
      destruct (benign_read_contour h s1) as [Hb1 Hn1].
      destruct (read_contour h s1) as [hs s2|e s2] eqn:Hrd; simpl in Hb1.
      * unfold bind at 1.
        destruct (benign_count_fingers t h s2) as [Hb2 Hn2].
        destruct (count_fingers t h s2) as [fingers s3|e s3] eqn:Hcf;
          simpl in Hb2.
        -- simpl. split; [reflexivity|]. split; [lia|]. intros _.
           split; [|congruence].
           split; [exists gray; simpl; auto|].
           split; [intros [H|[H|[H|[H|[H|[H|[]]]]]]]; discriminate|].
           intros g [H|[H|[H|[H|[H|[H|[]]]]]]]; discriminate.
        -- intros _ ->. apply (Hn2 s3). reflexivity.
      * intros _ ->. apply (Hn1 s2). reflexivity.
    + simpl. split; [reflexivity|]. split; [lia|]. intros _.
      split; [|exact Hbg].
      split; [exists gray; simpl; auto|].
      split; [intros [H|[H|[]]]; discriminate|].
      intros g [H|[H|[]]]; discriminate.
    + intros [Hlt|Hb] ->; [lia|]. apply (Hattr Hb s1). reflexivity.
Qed.

Lemma run_session_cons cam_read key rest num_frames s :
  run_session ((cam_read, key) :: rest) num_frames s =
    match tick num_frames cam_read key s with
    | Ok (n, continue, evs) s1 =>
        if continue
        then match run_session rest n s1 with
             | Ok r s2 => Ok (fst r, evs :: snd r) s2
             | Raise e s2 => Raise e s2
             end
        else Ok (n, [evs]) s1
    | Raise e s1 => Raise e s1
    end.
Proof.
  simpl. unfold bind at 1.
  destruct (tick num_frames cam_read key s) as [[[n continue] evs] s1|e s1];
    [|reflexivity].
  destruct continue; reflexivity.
Qed.






(** ** Further properties of the sampling circle *)









Lemma hand_circle_empty s : hand_circle [] s = Raise ValueError s.
Proof. reflexivity. Qed.









(** ** Further properties of the distances *)





(** ** Further properties of the background model *)

Lemma uint8_round_trip f :
  0 <= f <= 255 -> uint8_of_float (float_of_int f) = f.
Proof.
  intros Hf.
  assert (Hall : forallb (fun f => uint8_of_float (float_of_int f) =? f)
                   uint8_values = true) by (vm_compute; reflexivity).
  rewrite forallb_forall in Hall. apply Z.eqb_eq, Hall, uint8_values_In, Hf.
Qed.

Lemma average_same f :
  0 <= f <= 255 ->
  ((1 - 0.5) * float_of_int f + 0.5 * float_of_int f)%float = float_of_int f.
Proof.
  intros Hf.
  assert (Hall : forallb (fun f => Leibniz.eqb
                     ((1 - 0.5) * float_of_int f + 0.5 * float_of_int f)%float
                     (float_of_int f))
                   uint8_values = true) by (vm_compute; reflexivity).
  rewrite forallb_forall in Hall.
  apply Leibniz.eqb_spec, Hall, uint8_values_In, Hf.
Qed.

Lemma map_length_astype_float a : map length (astype_float a) = map length a.
Proof.
  unfold astype_float. rewrite map_map. apply map_ext. intros row.
  apply length_map.
Qed.

Lemma zip_with_map_r {A B C} (f : A -> B -> C) (g : A -> B) (l : list A) :
  zip_with f l (map g l) = map (fun x => f x (g x)) l.
Proof. induction l as [|x l IH]; simpl; [reflexivity|]. rewrite IH. reflexivity. Qed.

Lemma zip_with_map_l {A B C} (f : B -> A -> C) (g : A -> B) (l : list A) :
  zip_with f (map g l) l = map (fun x => f (g x) x) l.
Proof. induction l as [|x l IH]; simpl; [reflexivity|]. rewrite IH. reflexivity. Qed.

Lemma map_ext_Forall {A B} (f g : A -> B) (P : A -> Prop) (l : list A) :
  (forall x, P x -> f x = g x) -> Forall P l -> map f l = map g l.
Proof.
  intros Hfg Hall. induction Hall as [|x l Hx Hall IH]; simpl; [reflexivity|].
  rewrite (Hfg x Hx), IH. reflexivity.
Qed.

Lemma grid_map2_map_r {A B C} (f : A -> B -> C) (g : A -> B)
    (a : list (list A)) :
  grid_map2 f a (map (map g) a) = map (map (fun x => f x (g x))) a.
Proof.
  unfold grid_map2. rewrite zip_with_map_r. apply map_ext. intros row.
  apply zip_with_map_r.
Qed.

Lemma grid_map2_map_l {A B C} (f : B -> A -> C) (g : A -> B)
    (a : list (list A)) :
  grid_map2 f (map (map g) a) a = map (map (fun x => f (g x) x)) a.
Proof.
  unfold grid_map2. rewrite zip_with_map_l. apply map_ext. intros row.
  apply zip_with_map_l.
Qed.

Lemma grid_ext_Forall {A B} (f g : A -> B) (P : A -> Prop) (a : list (list A)) :
  (forall x, P x -> f x = g x) -> Forall (Forall P) a ->
  map (map f) a = map (map g) a.
Proof.
  intros Hfg Ha. apply (map_ext_Forall _ _ (Forall P)); [|exact Ha].
  intros row Hrow. apply (map_ext_Forall _ _ P); assumption.
Qed.

Lemma astype_uint8_astype_float (a : Image) :
  uint8_image a -> astype_uint8 (astype_float a) = a.
Proof.
  intros Ha. unfold astype_uint8, astype_float. rewrite map_map.
  transitivity (map (map (fun c : Z => c)) a).
  - rewrite <- (grid_ext_Forall (fun c => uint8_of_float (float_of_int c))
                  (fun c => c) (fun c => 0 <= c <= 255) a);
      [|intros c Hc; apply uint8_round_trip, Hc|exact Ha].
    apply map_ext. intros row. apply map_map.
  - rewrite <- (map_id a) at 2. apply map_ext. intros row. apply map_id.
Qed.

(** X6. Casting an 8-bit image to binary64, as the first [accumulate]
    does, and back to 8 bits, as [segment] does, gives the image back,
    cell for cell and with its shape. *)
Theorem astype_round_trip (a : Image) :
  uint8_image a ->
  astype_uint8 (astype_float a) = a
  /\ map length (astype_float a) = map length a
  /\ forall i j c, cell a i j = Some c ->
       cell (astype_uint8 (astype_float a)) i j = Some c.
Proof.
  intros Ha. split; [apply astype_uint8_astype_float, Ha|].
  split; [apply map_length_astype_float|].
  intros i j c Hc. rewrite (astype_uint8_astype_float a Ha). exact Hc.
Qed.

Lemma accumulate_mismatch frame weight s bg :
  background s = Some bg ->
  map length frame <> map length bg ->
  accumulate frame weight s = Raise cv2_error s.
Proof.
  intros Hb Hne. unfold accumulate, bind, get_background. rewrite Hb.
  unfold accumulateWeighted, same_shape.
  rewrite (proj2 (bool_decide_eq_false _) Hne). reflexivity.
Qed.

(** X7. [accumulate] raises cv2.error exactly when the frame does not have
    the shape of the model, and then changes nothing; when it returns, the
    arrays in the store are untouched and the model has kept its shape. *)
Theorem accumulate_shape (frame : Image) (weight : float) (s : State)
    (bg : FloatGrid) :
  background s = Some bg ->
  (map length frame <> map length bg
   <-> accumulate frame weight s = Raise cv2_error s)
  /\ (forall r s', accumulate frame weight s = Ok r s' ->
        heap s' = heap s
        /\ exists bg', background s' = Some bg'
                       /\ map length bg' = map length bg).
Proof.
  intros Hb. destruct (decide (map length frame = map length bg)) as [He|Hne].
  - rewrite (accumulate_next _ _ _ _ Hb He). split.
    + split; [contradiction|discriminate].
    + intros r s' H. injection H as _ <-. simpl. split; [reflexivity|].
      eexists. split; [reflexivity|]. apply map_length_grid_map2, He.
  - rewrite (accumulate_mismatch _ _ _ _ Hb Hne). split.
    + split; auto.
    + intros r s' H. discriminate.
Qed.

Lemma accumulate_same frame s :
  uint8_image frame ->
  background s = Some (astype_float frame) ->
  accumulate frame 0.5 s = Ok tt s.
Proof.
  intros Hu Hb.
  rewrite (accumulate_next _ _ _ _ Hb)
    by (symmetry; apply map_length_astype_float).
  unfold astype_float at 1. rewrite grid_map2_map_r.
  rewrite (grid_ext_Forall _ float_of_int (fun c => 0 <= c <= 255) frame
             average_same Hu).
  destruct s as [b h]. simpl in Hb. subst b. reflexivity.
Qed.

(** X8. A static scene calibrates to itself: fed the same 8-bit frame any
    number of times with weight 0.5, starting with no model, [accumulate]
    leaves the model equal to that frame, widened, and nothing else
    changed. *)
Theorem accumulate_static_scene (frame : Image) (n : nat) (s : State) :
  uint8_image frame ->
  background s = None ->
  for_each (replicate (S n) frame) (fun _ f => accumulate f 0.5) tt s
  = Ok tt (mkState (Some (astype_float frame)) (heap s)).
Proof.
  intros Hu Hb. simpl. rewrite (bind_Ok _ _ _ _ _ (accumulate_first _ _ _ Hb)).
  set (s1 := mkState (Some (astype_float frame)) (heap s)).
  assert (Hb1 : background s1 = Some (astype_float frame)) by reflexivity.
  clearbody s1. clear Hb s.
  induction n as [|n IH]; simpl; [reflexivity|].
  rewrite (bind_Ok _ _ _ _ _ (accumulate_same _ _ Hu Hb1)). exact IH.
Qed.

(** ** Further properties of the foreground segmenter *)

Lemma segment_no_background frame threshold s :
  background s = None -> segment frame threshold s = Raise AttributeError s.
Proof.
  intros Hb. unfold segment, bind, get_background. rewrite Hb. reflexivity.
Qed.

Lemma segment_mismatch frame threshold s bg :
  background s = Some bg ->
  map length bg <> map length frame ->
  segment frame threshold s = Raise cv2_error s.
Proof.
  intros Hb Hne. unfold segment, bind at 1, get_background. rewrite Hb.
  unfold bind at 1, absdiff, same_shape.
  rewrite (proj2 (bool_decide_eq_false _)); [reflexivity|].
  rewrite map_length_astype_uint8. exact Hne.
Qed.



Lemma threshold_binary_binary src thresh :
  binary_image (threshold_binary src thresh 255).
Proof.
  unfold binary_image, threshold_binary.
  apply List.Forall_forall. intros row Hrow.
  apply in_map_iff in Hrow as (r0 & <- & _).
  apply List.Forall_forall. intros c Hc.
  apply in_map_iff in Hc as (c0 & <- & _).
  destruct (thresh <? c0); auto.
Qed.

Lemma map_length_threshold_binary src thresh maxval :
  map length (threshold_binary src thresh maxval) = map length src.
Proof.
  unfold threshold_binary. rewrite map_map. apply map_ext. intros row.
  apply length_map.
Qed.

(** X10. Whenever [segment] returns, hand or no hand, the thresholded
    image it has built is the first new array of the store, has the shape
    of the frame, and holds only 0 and 255; when a hand is returned, that
    array is the mask returned with it, unspoilt by contour extraction. *)
Theorem segment_mask_binary (frame : Image) (threshold : Z) (s s' : State)
    (r : option (ref * ref)) :
  segment frame threshold s = Ok r s' ->
  exists mask,
    heap s' !! length (heap s) = Some (U8 mask)
    /\ binary_image mask
    /\ map length mask = map length frame
    /\ forall thresholded hand_segment,
         r = Some (thresholded, hand_segment) ->
         thresholded = length (heap s).
Proof.
  intros Hrun. destruct (background s) as [bg|] eqn:Hb.
  2:{ rewrite (segment_no_background _ _ _ Hb) in Hrun. discriminate. }
  destruct (decide (map length bg = map length frame)) as [He|Hne].
  2:{ rewrite (segment_mismatch _ _ _ _ Hb Hne) in Hrun. discriminate. }
  rewrite (segment_run _ _ _ _ Hb He) in Hrun. cbv zeta in Hrun.
  set (mask := threshold_binary _ threshold 255) in Hrun.
  exists mask. 
  assert (Hshape : map length mask = map length frame).
  { unfold mask. rewrite map_length_threshold_binary.
    rewrite map_length_grid_map2; [reflexivity|].
    rewrite map_length_astype_uint8. exact He. }
  destruct (findContours mask RETR_EXTERNAL CHAIN_APPROX_SIMPLE) as [|x xs];
    injection Hrun as <- <-; simpl heap.
  - split; [apply list_lookup_middle; reflexivity|].
    split; [apply threshold_binary_binary|]. split; [exact Hshape|].
    intros t h H. discriminate.
  - split; [apply list_lookup_middle; reflexivity|].
    split; [apply threshold_binary_binary|]. split; [exact Hshape|].
    intros t h H. injection H as <- _. reflexivity.
Qed.




(** ** Further properties of the finger counter *)

Lemma cell_draw_circle (a : list (list Z)) center radius color thickness i j :
  cell (draw_circle a center radius color thickness) i j
  = option_map (fun c => if circle_covers center radius thickness i j
                         then color else c)
               (cell a i j).
Proof.
  unfold cell, draw_circle. rewrite list_lookup_imap.
  destruct (a !! i) as [row|]; simpl; [|reflexivity].
  rewrite list_lookup_imap. destruct (row !! j); reflexivity.
Qed.

Lemma cell_np_zeros n m i j :
  (i < n)%nat -> (j < m)%nat -> cell (np_zeros (n, m)) i j = Some 0.
Proof.
  intros Hi Hj. unfold cell, np_zeros. simpl.
  rewrite (lookup_replicate_2 n _ i Hi). apply lookup_replicate_2, Hj.
Qed.

Lemma rectangular_cell_bounds {A} (a : list (list A)) i j v :
  rectangular a -> cell a i j = Some v ->
  (i < length a)%nat /\ (j < length (hd [] a))%nat.
Proof.
  unfold rectangular, cell. intros Hrect Hc.
  destruct (a !! i) as [row|] eqn:Hrow; [|discriminate].
  split; [eapply lookup_lt_Some; eauto|].
  rewrite List.Forall_forall in Hrect.
  rewrite <- (Hrect row).
  - eapply lookup_lt_Some; eauto.
  - apply list_elem_of_In. eapply list_elem_of_lookup_2; eauto.
Qed.

(** X12. The image that [count_fingers] extracts contours from is the
    thresholded image on the ring and 0 everywhere else: it has no
    foreground that the thresholded image does not have. *)
Theorem circular_roi_cells (thr : Image) (center : Point) (radius : Z)
    (i j : nat) (v : Z) :
  rectangular thr ->
  cell thr i j = Some v ->
  cell (circular_roi_image thr center radius) i j
  = Some (if circle_covers center radius 10 i j then v else 0).
Proof.
  intros Hrect Hv.
  destruct (rectangular_cell_bounds thr i j v Hrect Hv) as [Hi Hj].
  unfold circular_roi_image, and_under_mask.
  rewrite cell_grid_map2, cell_grid_map2, Hv, cell_draw_circle.
  unfold shape. rewrite (cell_np_zeros _ _ _ _ Hi Hj). simpl.
  rewrite Z.land_diag.
  destruct (circle_covers center radius 10 i j); reflexivity.
Qed.


Lemma count_fingers_nonneg t h s c s' :
  count_fingers t h s = Ok c s' -> 0 <= c.
Proof.
  intros Hrun.
  destruct (heap s !! h) as [[img|hs]|] eqn:Hh;
    try (unfold count_fingers, bind at 1, read_contour at 1 in Hrun;
         rewrite Hh in Hrun; discriminate).
  destruct (stateless_hand_circle (convexHull hs) s) as [Hst _].
  destruct (heap s !! t) as [[thr|pts]|] eqn:Ht.
  - rewrite (count_fingers_run _ _ _ _ _ Ht Hh) in Hrun.
    destruct (hand_circle (convexHull hs) s) as [[[[cX cY] radius] circ] s1|e s1];
      [|discriminate].
    cbv zeta in Hrun. destruct (same_shape thr _); [|discriminate].
    injection Hrun as <- _. lia.
  - unfold count_fingers in Hrun.
    rewrite (bind_Ok _ _ s hs s) in Hrun
      by (unfold read_contour; rewrite Hh; reflexivity).
    unfold bind at 1 in Hrun.
    destruct (hand_circle (convexHull hs) s) as [[[[cX cY] radius] circ] s1|e s1];
      simpl in Hst; subst; [|discriminate].
    unfold bind at 1, read_image at 1 in Hrun. rewrite Ht in Hrun. discriminate.
  - unfold count_fingers in Hrun.
    rewrite (bind_Ok _ _ s hs s) in Hrun
      by (unfold read_contour; rewrite Hh; reflexivity).
    unfold bind at 1 in Hrun.
    destruct (hand_circle (convexHull hs) s) as [[[[cX cY] radius] circ] s1|e s1];
      simpl in Hst; subst; [|discriminate].
    unfold bind at 1, read_image at 1 in Hrun. rewrite Ht in Hrun. discriminate.
Qed.

(** ** Further properties of the session controller *)

Lemma tick_facts num_frames cam_read key s :
  match tick num_frames cam_read key s with
  | Ok (n, continue, evs) s' =>
      continue = negb (is_esc key)
      /\ (forall c, In (PutTextCount c) evs -> 0 <= c)
      /\ (60 <= num_frames -> background s' = background s)
  | Raise _ s' => 60 <= num_frames -> background s' = background s
  end.
Proof.
  destruct cam_read as [f|]; [|simpl; auto].
  unfold tick, cv2_flip, bind at 1, ret at 1.
  set (gray := GaussianBlur _ _ _).
  unfold bind at 1. destruct (Z.ltb_spec num_frames 60) as [Hlt|Hge].
  - unfold bind at 1.
    destruct (accumulate gray 0.5 s) as [[] s1|e s1]; [|intros; lia].
    simpl. split; [reflexivity|]. split; [|intros; lia].
    intros c [H|H]; [discriminate|].
    destruct (num_frames <=? 59); simpl in H;
      repeat (destruct H as [H|H]; [discriminate|]); contradiction.
  - unfold bind at 1.
    destruct (segment_keeps_background gray 25 s) as [Hbg _].
    destruct (segment gray 25 s) as [[[t h]|] s1|e s1]; simpl in Hbg.
    + unfold bind at 1.
      destruct (benign_read_contour h s1) as [Hb1 _].
      destruct (read_contour h s1) as [hs s2|e s2]; simpl in Hb1;
        [|intros _; congruence].
      unfold bind at 1.
      destruct (benign_count_fingers t h s2) as [Hb2 _].
      destruct (count_fingers t h s2) as [fingers s3|e s3] eqn:Hcf;
        simpl in Hb2; [|intros _; congruence].
      simpl. split; [reflexivity|]. split; [|intros _; congruence].
      intros c H. repeat (destruct H as [H|H]; try discriminate).
      * injection H as <-. exact (count_fingers_nonneg _ _ _ _ _ Hcf).
      * contradiction.
    + simpl. split; [reflexivity|]. split; [|intros _; exact Hbg].
      intros c H. repeat (destruct H as [H|H]; try discriminate). contradiction.
    + intros _. exact Hbg.
Qed.

(** X14. The Esc key ends the session: a pass whose key has 27 in its low
    byte is the last one, and the frames after it are never processed;
    while no key is Esc and nothing fails, every frame delivered is
    processed, in order. *)
Theorem esc_ends_session (num_frames : Z) (s : State) :
  (forall pre cam_read key rest,
     is_esc key = true ->
     run_session (pre ++ (cam_read, key) :: rest) num_frames s
     = run_session (pre ++ [(cam_read, key)]) num_frames s)
  /\ (forall inputs n trace s',
        Forall (fun input => is_esc (snd input) = false) inputs ->
        run_session inputs num_frames s = Ok (n, trace) s' ->
        length trace = length inputs).
Proof.
  split.
  - intros pre cam_read key rest Hesc. revert num_frames s.
    induction pre as [|[cam0 key0] pre IH]; intros k s.
    + simpl app. rewrite !run_session_cons.
      pose proof (tick_facts k cam_read key s) as Hf.
      destruct (tick k cam_read key s) as [[[n continue] evs] s1|e s1];
        [|reflexivity].
      destruct Hf as (-> & _). rewrite Hesc. reflexivity.
    + simpl app. rewrite !run_session_cons.
      destruct (tick k cam0 key0 s) as [[[n continue] evs] s1|e s1];
        [|reflexivity].
      destruct continue; [|reflexivity]. rewrite IH. reflexivity.
  - intros inputs. revert num_frames s.
    induction inputs as [|[cam0 key0] inputs IH]; intros k s n trace s' Hall Hrun.
    + simpl in Hrun. injection Hrun as _ <- _. reflexivity.
    + rewrite run_session_cons in Hrun.
      pose proof (tick_facts k cam0 key0 s) as Hf.
      destruct (tick k cam0 key0 s) as [[[n1 continue] evs] s1|e s1];
        [|discriminate].
      destruct Hf as (-> & _). inversion Hall as [|x l Hkey Hrest]; subst.
      simpl in Hkey. rewrite Hkey in Hrun. simpl in Hrun.
      destruct (run_session inputs n1 s1) as [[n2 trace2] s2|e s2] eqn:Hrec;
        [|discriminate].
      injection Hrun as _ <- _. simpl. f_equal. eapply IH; eauto.
Qed.

(** X15. Once calibration is over the background model is frozen: from a
    frame counter of 60 or more, however many frames follow and however
    the session ends, the model is the one it was. *)
Theorem detection_keeps_background (inputs : list (option ColorImage * Z))
    (num_frames : Z) (s : State) :
  60 <= num_frames ->
  background (final_state (run_session inputs num_frames s)) = background s.
Proof.
  revert num_frames s.
  induction inputs as [|[cam0 key0] inputs IH]; intros k s Hk; [reflexivity|].
  rewrite run_session_cons.
  pose proof (tick_facts k cam0 key0 s) as Hf.
  pose proof (tick_step k cam0 key0 s) as Hs.
  destruct (tick k cam0 key0 s) as [[[n continue] evs] s1|e s1];
    [|simpl; auto].
  destruct Hf as (_ & _ & Hbg). destruct Hs as (-> & _).
  specialize (Hbg Hk). destruct continue; [|simpl; exact Hbg].
  specialize (IH (k + 1) s1 ltac:(lia)).
  destruct (run_session inputs (k + 1) s1) as [[n2 trace2] s2|e s2];
    simpl in *; congruence.
Qed.

(** X16. No finger count that a session displays is negative. *)
Theorem displayed_counts_nonneg (inputs : list (option ColorImage * Z))
    (num_frames n : Z) (s s' : State) (trace : list (list Event)) :
  run_session inputs num_frames s = Ok (n, trace) s' ->
  forall evs c, In evs trace -> In (PutTextCount c) evs -> 0 <= c.
Proof.
  revert num_frames s n trace s'.
  induction inputs as [|[cam0 key0] inputs IH]; intros k s n trace s' Hrun.
  - simpl in Hrun. injection Hrun as _ <- _. intros evs c [].
  - rewrite run_session_cons in Hrun.
    pose proof (tick_facts k cam0 key0 s) as Hf.
    destruct (tick k cam0 key0 s) as [[[n1 continue] evs1] s1|e s1];
      [|discriminate].
    destruct Hf as (_ & Hnn & _). destruct continue.
    + destruct (run_session inputs n1 s1) as [[n2 trace2] s2|e s2] eqn:Hrec;
        [|discriminate].
      injection Hrun as _ <- _. simpl.
      intros evs c [<-|Hin] Hc; [exact (Hnn c Hc)|].
      exact (IH _ _ _ _ _ Hrec evs c Hin Hc).
    + injection Hrun as _ <- _. intros evs c [<-|[]] Hc. exact (Hnn c Hc).
Qed.

(** ** The sampling circle of a moved hull *)









End Program.

(** ** The theorems on the concrete instance *)





(** A second call on the sample arguments has the outcome of the first. *)
Lemma count_fingers_pure_witness :
  outcome (count_fingers Sample.findContours Sample.findContours_leaves
             Sample.convexHull Sample.boundingRect Sample.circle_covers
             0%nat 1%nat
             (final_state
                (count_fingers Sample.findContours Sample.findContours_leaves
                   Sample.convexHull Sample.boundingRect Sample.circle_covers
                   0%nat 1%nat Sample.state)))
  = outcome (count_fingers Sample.findContours Sample.findContours_leaves
               Sample.convexHull Sample.boundingRect Sample.circle_covers
               0%nat 1%nat Sample.state).
Proof.
  apply (count_fingers_pure Sample.findContours Sample.findContours_leaves
           Sample.convexHull Sample.boundingRect Sample.circle_covers
           0%nat 1%nat Sample.state Sample.thresholded Sample.hand_segment);
    reflexivity.
Defined.

(** The sample arguments are unchanged by the call, although the sample
    contour extraction wipes the image it is given. *)
Lemma count_fingers_keeps_inputs_witness :
  heap (final_state
          (count_fingers Sample.findContours Sample.findContours_leaves
             Sample.convexHull Sample.boundingRect Sample.circle_covers
             0%nat 1%nat Sample.state)) !! 0%nat
  = Some (U8 Sample.thresholded)
  /\ heap (final_state
             (count_fingers Sample.findContours Sample.findContours_leaves
                Sample.convexHull Sample.boundingRect Sample.circle_covers
                0%nat 1%nat Sample.state)) !! 1%nat
     = Some (I32 Sample.hand_segment).
Proof.
  apply (count_fingers_keeps_inputs Sample.findContours
           Sample.findContours_leaves Sample.convexHull Sample.boundingRect
           Sample.circle_covers 0%nat 1%nat Sample.state);
    reflexivity.
Defined.



(** ** The further properties on the concrete instance *)



(** The first sample frame survives the two casts. *)
Lemma astype_round_trip_witness :
  astype_uint8 (astype_float Sample.frame1) = Sample.frame1.
Proof.
  apply (astype_round_trip Sample.frame1).
  repeat constructor; lia.
Defined.

(** A 1 x 1 frame does not fit a 1 x 2 model. *)
Lemma accumulate_shape_witness :
  accumulate Sample.probe 0.5
    (mkState (Some (astype_float Sample.frame1)) [])
  = Raise cv2_error (mkState (Some (astype_float Sample.frame1)) []).
Proof.
  apply (accumulate_shape Sample.probe 0.5
           (mkState (Some (astype_float Sample.frame1)) [])
           (astype_float Sample.frame1)).
  - reflexivity.
  - discriminate.
Defined.

(** Sixty times the first sample frame. *)
Lemma accumulate_static_scene_witness :
  for_each (replicate 60 Sample.frame1) (fun _ f => accumulate f 0.5) tt
    initial_state
  = Ok tt (mkState (Some (astype_float Sample.frame1)) []).
Proof.
  apply (accumulate_static_scene Sample.frame1 59 initial_state).
  - repeat constructor; lia.
  - reflexivity.
Defined.

(** The mask found for the second sample frame against the first. *)
Lemma segment_mask_binary_witness :
  exists mask,
    binary_image mask /\ map length mask = map length Sample.frame2.
Proof.
  destruct (segment_mask_binary Sample.findContours Sample.findContours_leaves
              Sample.contourArea Sample.frame2 25
              (mkState (Some (astype_float Sample.frame1)) [])
              (mkState (Some (astype_float Sample.frame1))
                 [U8 [[0; 255]]; U8 [[0; 0]]; I32 [(0, 0); (1, 0); (1, 1)]])
              (Some (0%nat, 2%nat)))
    as (mask & _ & Hbin & Hshape & _).
  - vm_compute. reflexivity.
  - exists mask. split; assumption.
Defined.


(** With a circle that covers every cell the ROI is the image. *)
Lemma circular_roi_cells_witness :
  cell (circular_roi_image Sample.circle_covers Sample.thresholded (2, 3) 2)
       1 1
  = Some 255.
Proof.
  apply (circular_roi_cells Sample.circle_covers Sample.thresholded
           (2, 3) 2 1%nat 1%nat 255).
  - repeat constructor.
  - reflexivity.
Defined.


(** Two detection frames leave the model of the first sample frame. *)
Lemma detection_keeps_background_witness :
  background
    (final_state
       (run_session Image Sample.flip Sample.crop Sample.cvtColor_gray
          Sample.GaussianBlur Sample.findContours Sample.findContours_leaves
          Sample.contourArea Sample.convexHull Sample.boundingRect
          Sample.circle_covers
          [(Some Sample.frame2, 0); (Some Sample.frame1, 0)] 60
          (mkState (Some (astype_float Sample.frame1)) [])))
  = Some (astype_float Sample.frame1).
Proof.
  apply (detection_keeps_background Image Sample.flip Sample.crop
           Sample.cvtColor_gray Sample.GaussianBlur Sample.findContours
           Sample.findContours_leaves Sample.contourArea Sample.convexHull
           Sample.boundingRect Sample.circle_covers
           [(Some Sample.frame2, 0); (Some Sample.frame1, 0)] 60
           (mkState (Some (astype_float Sample.frame1)) [])).
  lia.
Defined.

(** The session of 61 frames displays one count, and it is not negative. *)
Lemma displayed_counts_nonneg_witness :
  exists n trace s',
    run_session Image Sample.flip Sample.crop Sample.cvtColor_gray
      Sample.GaussianBlur Sample.findContours Sample.findContours_leaves
      Sample.contourArea Sample.convexHull Sample.boundingRect
      Sample.circle_covers
      (replicate 60 (Some Sample.frame1, 0) ++ [(Some Sample.frame2, 27)])
      0 initial_state
    = Ok (n, trace) s'
    /\ forall evs c, In evs trace -> In (PutTextCount c) evs -> 0 <= c.
Proof.
  eexists. eexists. eexists.
  assert (Hrun : run_session Image Sample.flip Sample.crop Sample.cvtColor_gray
      Sample.GaussianBlur Sample.findContours Sample.findContours_leaves
      Sample.contourArea Sample.convexHull Sample.boundingRect
      Sample.circle_covers
      (replicate 60 (Some Sample.frame1, 0) ++ [(Some Sample.frame2, 27)])
      0 initial_state = Ok (_, _) _) by (vm_compute; reflexivity).
  split; [exact Hrun|].
  exact (displayed_counts_nonneg _ _ _ _ _ _ _ _ _ _ _ _ _ _ _ _ _ Hrun).
Defined.

